(** * The API response envelope of [src/utils/apiResponse.ts]

    A shallow embedding of the [ApiResponse<T>] interface, of its two
    constructors [createSuccessResponse] and [createErrorResponse] and of
    its two type guards [isSuccessResponse] and [isErrorResponse], followed
    by the properties of the envelope that the specification states.

    The specification calls the four functions [createSuccess],
    [createFailure], [isSuccess] and [isFailure]; the definitions below keep
    the names of the source. *)

From Stdlib Require Import ZArith String List Bool Arith Sorted Lia.
Import ListNotations.

Set Implicit Arguments.

(** ** JavaScript data *)

(** A value of the TypeScript type [A | undefined]. *)
Inductive js (A : Type) : Type :=
| undefined : js A
| val : A -> js A.
Arguments undefined {A}.

(** An optional property [k?: A] of an object.  The key is either missing
    from the object, or it is there and holds a value of [A | undefined]
    (the compiler's default, without [exactOptionalPropertyTypes]). *)
Inductive optional (A : Type) : Type :=
| absent : optional A
| present : js A -> optional A.
Arguments absent {A}.

(** The operator ['k' in obj] on the slot of the key [k].  The envelope is a
    plain object, whose prototype has neither a [data] nor an [error] key,
    so the test is one on the object's own keys. *)
Definition has_key {A : Type} (slot : optional A) : bool :=
  match slot with
  | absent => false
  | present _ => true
  end.

(** The property read [obj.k]: a missing key reads as [undefined]. *)
Definition get {A : Type} (slot : optional A) : js A :=
  match slot with
  | absent => undefined
  | present v => v
  end.

(** The binding of an optional parameter [p?: A]: an omitted argument binds
    the parameter to [undefined]. *)
Definition param {A : Type} (arg : option (js A)) : js A :=
  match arg with
  | None => undefined
  | Some v => v
  end.

(** The empty type [never]. *)
Definition never : Type := Empty_set.

(** A small universe of defined values for the concrete scenarios. *)
#[local] Unset Elimination Schemes.
Inductive json : Type :=
| JNull : json
| JBool : bool -> json
| JNumber : Z -> json
| JString : string -> json
| JArray : list json -> json
| JObject : list (string * json) -> json.
#[local] Set Elimination Schemes.

(** ** The ambient clock *)

(** [Date.now()] is the only effect of the module.  The world holds what the
    clock shows at each of its readings ([clock w i] is the number of
    milliseconds that the reading number [i] observes) and how many readings
    have been made so far. *)
Record World : Type := mkWorld {
  clock : nat -> Z;
  reads : nat
}.

Definition IO (A : Type) : Type := World -> A * World.

Definition ret {A : Type} (a : A) : IO A := fun w => (a, w).

Definition bind {A B : Type} (m : IO A) (k : A -> IO B) : IO B :=
  fun w => let (a, w') := m w in k a w'.

Notation "x <- m ;; k" := (bind m (fun x => k))
  (at level 61, m at next level, right associativity).

(** What the clock shows at this moment, and the world after one reading. *)
Definition now (w : World) : Z := clock w (reads w).

Definition tick (w : World) : World :=
  {| clock := clock w; reads := S (reads w) |}.

Definition Date_now : IO Z := fun w => (now w, tick w).

(** A clock that never runs backwards. *)
Definition non_decreasing (c : nat -> Z) : Prop :=
  forall i j : nat, i <= j -> (c i <= c j)%Z.

(** A clock with a resolution of two readings to the millisecond, and the
    world that starts on it. *)
Definition coarse_clock (i : nat) : Z := 1700000000000 + Z.of_nat (i / 2).

Definition boot : World := {| clock := coarse_clock; reads := 0 |}.

(** A world whose clock stands still, and one whose clock has been read
    seven times; both show the time 7. *)
Definition still : World := {| clock := fun _ => 7%Z; reads := 0 |}.

Definition seventh : World := {| clock := Z.of_nat; reads := 7 |}.

(** A world whose clock is set back by one millisecond at every reading. *)
Definition rewound : World :=
  {| clock := fun i => (1700000000000 - Z.of_nat i)%Z; reads := 0 |}.

Section Envelope.

(** The defined JavaScript values; [unknown] is any of them or [undefined].
    The module never looks inside such a value. *)
Variable value : Type.

Definition unknown : Type := js value.

(** ** The interface [ApiResponse<T>] *)

(** The object type of the [error] property; [details?: unknown]. *)
Record ErrorInfo : Type := mkErrorInfo {
  code : string;
  message : string;
  details : optional value
}.

(** [success: boolean; data?: T; error?: {...}; timestamp: number].  The
    timestamps that the module writes are readings of [Date.now()], whole
    numbers of milliseconds. *)
Record ApiResponse (T : Type) : Type := mkApiResponse {
  success : bool;
  data : optional T;
  error : optional ErrorInfo;
  timestamp : Z
}.

(** ** The constructors *)

(** [return { success: true, data, timestamp: Date.now() }] *)
Definition createSuccessResponse {T : Type} (data : T) : IO (ApiResponse T) :=
  t <- Date_now ;;
  ret {| success := true;
         data := present (val data);
         error := absent;
         timestamp := t |}.

(** [return { success: false, error: { code, message, details },
              timestamp: Date.now() }]
    The literal of the error object always writes the key [details]. *)
Definition createErrorResponse (code message : string)
    (details : option unknown) : IO (ApiResponse never) :=
  t <- Date_now ;;
  ret {| success := false;
         data := absent;
         error := present (val {| code := code;
                                  message := message;
                                  details := present (param details) |});
         timestamp := t |}.

(** ** The type guards *)

(** [return response.success && 'data' in response] *)
Definition isSuccessResponse {T : Type} (response : ApiResponse T) : bool :=
  success response && has_key (data response).

(** [return !response.success && 'error' in response] *)
Definition isErrorResponse {T : Type} (response : ApiResponse T) : bool :=
  negb (success response) && has_key (error response).

(** ** Envelopes whose flag and fields agree *)

(** Of two answers, one is [true] and the other is [false]. *)
Definition exactly_one (a b : bool) : Prop :=
  (a = true /\ b = false) \/ (a = false /\ b = true).

(** The key that the flag announces is there: [data] under [success = true],
    [error] under [success = false]. *)
Definition populated {T : Type} (e : ApiResponse T) : bool :=
  if success e then has_key (data e) else has_key (error e).

(** ** Sequences of constructor calls *)

(** One call of a constructor, with its arguments.  The payload type may
    change from call to call. *)
Inductive call : Type :=
| CallSuccess : forall T : Type, T -> call
| CallError : string -> string -> option unknown -> call.

(** An envelope of some payload type. *)
Definition envelope : Type := { T : Type & ApiResponse T }.

Definition stamp (e : envelope) : Z := timestamp (projT2 e).

Definition perform (c : call) : IO envelope :=
  match c with
  | CallSuccess v =>
      r <- createSuccessResponse v ;; ret (existT ApiResponse _ r)
  | CallError code message details =>
      r <- createErrorResponse code message details ;;
      ret (existT ApiResponse never r)
  end.

(** The calls are made one after the other, in the order of the list. *)
Fixpoint run (cs : list call) : IO (list envelope) :=
  match cs with
  | [] => ret []
  | c :: cs' =>
      e <- perform c ;;
      es <- run cs' ;;
      ret (e :: es)
  end.

(** Which constructor a call is a call of. *)
Definition is_success_call (c : call) : bool :=
  match c with
  | CallSuccess _ => true
  | CallError _ _ _ => false
  end.

(** ** Some envelopes and a sequence of calls *)

(** [{ success: true, timestamp: 0 }]: an [ApiResponse<number>] without the
    optional key [data]. *)
Definition flag_only : ApiResponse Z :=
  {| success := true; data := absent; error := absent; timestamp := 0 |}.

(** [{ success: false, timestamp: 0 }]: an [ApiResponse<number>] without the
    optional key [error]. *)
Definition bare_failure : ApiResponse Z :=
  {| success := false; data := absent; error := absent; timestamp := 0 |}.

(** [{ success: true, data: 1, error: { code: "E1", message: "boom" },
       timestamp: 0 }]: both optional keys at once. *)
Definition overfull : ApiResponse Z :=
  {| success := true;
     data := present (val 1%Z);
     error := present (val {| code := "E1"; message := "boom";
                              details := absent |});
     timestamp := 0 |}.

(** [createSuccessResponse(42)], [createErrorResponse("NOT_FOUND",
    "Resource missing")], [createSuccessResponse("done")] and
    [createErrorResponse("E1", "boom", undefined)], in this order. *)
Definition session : list call :=
  [ CallSuccess 42%Z;
    CallError "NOT_FOUND" "Resource missing" None;
    CallSuccess "done"%string;
    CallError "E1" "boom" (Some undefined) ].

(** ** Running the constructors *)

Lemma createSuccessResponse_run (T : Type) (v : T) (w : World) :
  createSuccessResponse v w =
  ({| success := true; data := present (val v); error := absent;
      timestamp := now w |}, tick w).
Proof. reflexivity. Qed.

Lemma createErrorResponse_run (c m : string) (d : option unknown) (w : World) :
  createErrorResponse c m d w =
  ({| success := false; data := absent;
      error := present (val {| code := c; message := m;
                               details := present (param d) |});
      timestamp := now w |}, tick w).
Proof. reflexivity. Qed.

Lemma perform_run (c : call) (w : World) :
  exists e : envelope, perform c w = (e, tick w) /\ stamp e = now w.
Proof.
  destruct c as [T v | c m d]; eexists; split; reflexivity.
Qed.

Lemma run_cons (c : call) (cs : list call) (w : World) :
  run (c :: cs) w =
  (fst (perform c w) :: fst (run cs (snd (perform c w))),
   snd (run cs (snd (perform c w)))).
Proof.
  simpl. unfold bind.
  destruct (perform c w) as [e w1]. simpl.
  destruct (run cs w1) as [es w2]. reflexivity.
Qed.

(** ** The type guards read the flag and one key *)

Lemma isSuccessResponse_true (T : Type) (e : ApiResponse T) :
  isSuccessResponse e = true <->
  success e = true /\ has_key (data e) = true.
Proof. unfold isSuccessResponse. apply andb_true_iff. Qed.

Lemma isErrorResponse_true (T : Type) (e : ApiResponse T) :
  isErrorResponse e = true <->
  success e = false /\ has_key (error e) = true.
Proof.
  unfold isErrorResponse.
  rewrite andb_true_iff, negb_true_iff. reflexivity.
Qed.

Lemma guards_disjoint (T : Type) (e : ApiResponse T) :
  isSuccessResponse e && isErrorResponse e = false.
Proof.
  unfold isSuccessResponse, isErrorResponse.
  destruct (success e); simpl.
  - apply andb_false_r.
  - reflexivity.
Qed.

(** ** A clock that does not run backwards *)

Lemma now_tick_le (w : World) :
  non_decreasing (clock w) -> (now w <= now (tick w))%Z.
Proof.
  intros Hmono. unfold now, tick; simpl.
  apply Hmono. apply Nat.le_succ_diag_r.
Qed.

Lemma run_length (cs : list call) :
  forall w : World, length (fst (run cs w)) = length cs.
Proof.
  induction cs as [| c cs IH]; intros w.
  - reflexivity.
  - rewrite run_cons. simpl. now rewrite IH.
Qed.

Lemma run_not_before (cs : list call) :
  forall w : World,
    non_decreasing (clock w) ->
    Forall (fun e => (now w <= stamp e)%Z) (fst (run cs w)).
Proof.
  induction cs as [| c cs IH]; intros w Hmono.
  - constructor.
  - rewrite run_cons. simpl.
    destruct (perform_run c w) as [e [Hrun Hstamp]].
    rewrite Hrun. simpl.
    constructor.
    + rewrite Hstamp. apply Z.le_refl.
    + apply Forall_impl with (P := fun e' => (now (tick w) <= stamp e')%Z).
      * intros e' Hle.
        apply Z.le_trans with (m := now (tick w)); [ | exact Hle].
        now apply now_tick_le.
      * apply IH. exact Hmono.
Qed.

(** ** What a sequence of calls does to the clock *)

Lemma perform_guards (c : call) (w : World) :
  isSuccessResponse (projT2 (fst (perform c w))) = is_success_call c /\
  isErrorResponse (projT2 (fst (perform c w))) = negb (is_success_call c).
Proof. destruct c; split; reflexivity. Qed.

Lemma run_world (cs : list call) :
  forall w : World,
    snd (run cs w) = {| clock := clock w; reads := reads w + length cs |}.
Proof.
  induction cs as [| c cs IH]; intros w.
  - destruct w as [ck n]. simpl. now rewrite Nat.add_0_r.
  - rewrite run_cons. simpl.
    destruct (perform_run c w) as [e [Hrun _]].
    rewrite Hrun. simpl. rewrite IH. simpl.
    f_equal. lia.
Qed.

Lemma run_stamps (cs : list call) :
  forall w : World,
    map stamp (fst (run cs w)) =
    map (fun k => clock w (reads w + k)) (seq 0 (length cs)).
Proof.
  induction cs as [| c cs IH]; intros w.
  - reflexivity.
  - rewrite run_cons. simpl.
    destruct (perform_run c w) as [e [Hrun Hstamp]].
    rewrite Hrun. simpl. rewrite Hstamp, IH. f_equal.
    + unfold now. now rewrite Nat.add_0_r.
    + rewrite <- seq_shift, map_map. apply map_ext.
      intros k. simpl. now rewrite Nat.add_succ_r.
Qed.

Lemma sorted_readings (f : nat -> Z) :
  forall n a : nat,
    StronglySorted Z.le (map f (seq a n)) <->
    (forall i j : nat, a <= i -> i <= j -> j < a + n -> (f i <= f j)%Z).
Proof.
  induction n as [| n IH]; intros a; simpl.
  - split; [intros _ i j; lia | constructor].
  - split.
    + intros Hs. apply StronglySorted_inv in Hs as [Hs Hf].
      intros i j Hai Hij Hj.
      destruct (Nat.eq_dec i a) as [-> | Hia].
      * destruct (Nat.eq_dec j a) as [-> | Hja]; [apply Z.le_refl | ].
        rewrite Forall_map, Forall_forall in Hf.
        apply Hf, in_seq. lia.
      * apply (proj1 (IH (S a)) Hs); lia.
    + intros H. constructor.
      * apply IH. intros i j Hai Hij Hj. apply H; lia.
      * apply Forall_map, Forall_forall.
        intros j Hj. apply in_seq in Hj. apply H; lia.
Qed.

(** ** The properties of the specification *)

(** C1 (as amended).  For every envelope, exactly one of the two guards
    answers [true] if and only if the key that the flag announces is in the
    envelope ([data] when [success] is true, [error] when it is false); when
    that key is missing both guards answer [false]; and the two guards never
    both answer [true]. *)
Theorem guards_exactly_one_iff_populated (T : Type) (e : ApiResponse T) :
  (exactly_one (isSuccessResponse e) (isErrorResponse e) <->
   populated e = true) /\
  (isSuccessResponse e = false /\ isErrorResponse e = false <->
   populated e = false) /\
  ~ (isSuccessResponse e = true /\ isErrorResponse e = true).
Proof.
  unfold exactly_one, populated, isSuccessResponse, isErrorResponse.
  destruct (success e), (has_key (data e)), (has_key (error e)); simpl;
    intuition congruence.
Qed.

(** C2 (as amended).  For every envelope, [isSuccessResponse] answers [true]
    if and only if the success flag is true and the envelope has the key
    [data]; [isErrorResponse] answers [true] if and only if the success flag
    is false and the envelope has the key [error]. *)
Theorem guards_decided_by_flag_and_key (T : Type) (e : ApiResponse T) :
  (isSuccessResponse e = true <->
   success e = true /\ has_key (data e) = true) /\
  (isErrorResponse e = true <->
   success e = false /\ has_key (error e) = true).
Proof.
  split.
  - apply isSuccessResponse_true.
  - apply isErrorResponse_true.
Qed.

(** C3.  On the envelope that [createSuccessResponse] returns for any
    payload, [isSuccessResponse] answers [true] and [isErrorResponse]
    answers [false]; on the envelope that [createErrorResponse] returns for
    any code, message and details, [isErrorResponse] answers [true] and
    [isSuccessResponse] answers [false]. *)
Theorem guards_on_constructed
    (T : Type) (v : T) (c m : string) (d : option unknown) (w : World) :
  (isSuccessResponse (fst (createSuccessResponse v w)) = true /\
   isErrorResponse (fst (createSuccessResponse v w)) = false) /\
  (isErrorResponse (fst (createErrorResponse c m d w)) = true /\
   isSuccessResponse (fst (createErrorResponse c m d w)) = false).
Proof.
  rewrite createSuccessResponse_run, createErrorResponse_run.
  repeat split.
Qed.

(** C4.  For every payload [v], the envelope of [createSuccessResponse v]
    has the success flag true, holds [v] itself under the key [data], is
    stamped with what the clock shows when the call is made, and has no key
    [error] (so that reading it gives [undefined]). *)
Theorem createSuccessResponse_fields (T : Type) (v : T) (w : World) :
  let e := fst (createSuccessResponse v w) in
  success e = true /\
  data e = present (val v) /\
  get (data e) = val v /\
  timestamp e = now w /\
  error e = absent /\
  get (error e) = undefined.
Proof.
  rewrite createSuccessResponse_run. simpl. repeat split.
Qed.

(** C5.  For every code, message and details, the envelope of
    [createErrorResponse] has the success flag false, an error record with
    exactly that code, that message and those details, and no key [data];
    when the details argument is omitted, the details of the record read as
    [undefined]. *)
Theorem createErrorResponse_fields
    (c m : string) (d : option unknown) (w : World) :
  let e := fst (createErrorResponse c m d w) in
  success e = false /\
  (exists err : ErrorInfo,
      get (error e) = val err /\
      code err = c /\ message err = m /\ get (details err) = param d /\
      (d = None -> get (details err) = undefined)) /\
  data e = absent /\
  get (data e) = undefined.
Proof.
  rewrite createErrorResponse_run. simpl.
  split; [reflexivity | ].
  split; [ | split; reflexivity].
  eexists. split; [reflexivity | ]. simpl.
  repeat split.
  intros ->. reflexivity.
Qed.

(** C6.  [createErrorResponse] checks nothing about its strings: for every
    code and message it returns a failure envelope that carries the two
    strings as they were given, and it does so for the empty code and the
    empty message as well. *)
Theorem createErrorResponse_no_validation
    (c m : string) (d : option unknown) (w : World) :
  (exists (r : ApiResponse never) (err : ErrorInfo),
      createErrorResponse c m d w = (r, tick w) /\
      isErrorResponse r = true /\
      get (error r) = val err /\ code err = c /\ message err = m) /\
  (exists (r : ApiResponse never) (err : ErrorInfo),
      createErrorResponse EmptyString EmptyString d w = (r, tick w) /\
      isErrorResponse r = true /\
      get (error r) = val err /\
      code err = EmptyString /\ message err = EmptyString).
Proof.
  split; rewrite createErrorResponse_run;
    eexists; eexists; repeat split.
Qed.

(** C7.  Under a clock that never runs backwards, the envelopes of any
    sequence of constructor calls (one envelope for each call, in the order
    of the calls) carry timestamps that never decrease; equal timestamps may
    follow each other. *)
Theorem timestamps_non_decreasing (cs : list call) (w : World) :
  non_decreasing (clock w) ->
  length (fst (run cs w)) = length cs /\
  StronglySorted Z.le (map stamp (fst (run cs w))).
Proof.
  intros Hmono. split; [apply run_length | ].
  revert w Hmono.
  induction cs as [| c cs IH]; intros w Hmono.
  - constructor.
  - rewrite run_cons. simpl.
    destruct (perform_run c w) as [e [Hrun Hstamp]].
    rewrite Hrun. simpl.
    constructor.
    + apply IH. exact Hmono.
    + apply Forall_map.
      apply Forall_impl with (P := fun e' => (now (tick w) <= stamp e')%Z).
      * intros e' Hle. rewrite Hstamp.
        apply Z.le_trans with (m := now (tick w)); [ | exact Hle].
        now apply now_tick_le.
      * now apply run_not_before.
Qed.

(** C8.  The four operations are total.  In every world each constructor
    returns an envelope, and the world it leaves differs only in the count
    of clock readings, which is one more; each guard answers [true] or
    [false] on every envelope, and reads no world at all. *)
Theorem operations_total
    (T : Type) (v : T) (c m : string) (d : option unknown)
    (e : ApiResponse T) (w : World) :
  (exists r : ApiResponse T, createSuccessResponse v w = (r, tick w)) /\
  (exists r : ApiResponse never, createErrorResponse c m d w = (r, tick w)) /\
  clock (tick w) = clock w /\ reads (tick w) = S (reads w) /\
  (isSuccessResponse e = true \/ isSuccessResponse e = false) /\
  (isErrorResponse e = true \/ isErrorResponse e = false).
Proof.
  split; [eexists; apply createSuccessResponse_run | ].
  split; [eexists; apply createErrorResponse_run | ].
  split; [reflexivity | ].
  split; [reflexivity | ].
  split.
  - destruct (isSuccessResponse e); [left | right]; reflexivity.
  - destruct (isErrorResponse e); [left | right]; reflexivity.
Qed.

(** C9.  On no envelope do both guards answer [true], whatever keys the
    envelope has: one guard asks for the flag, the other for its negation. *)
Theorem guards_never_both (T : Type) (e : ApiResponse T) :
  ~ (isSuccessResponse e = true /\ isErrorResponse e = true).
Proof.
  intros [Hs He].
  pose proof (guards_disjoint e) as Hd.
  rewrite Hs, He in Hd. discriminate Hd.
Qed.

(** C10.  The constructors depend on the world through the clock reading
    only: two calls with the same arguments, made in two worlds whose clocks
    show the same time, return equal envelopes. *)
Theorem constructors_deterministic_modulo_clock
    (T : Type) (v : T) (c m : string) (d : option unknown)
    (w1 w2 : World) :
  now w1 = now w2 ->
  fst (createSuccessResponse v w1) = fst (createSuccessResponse v w2) /\
  fst (createErrorResponse c m d w1) = fst (createErrorResponse c m d w2).
Proof.
  intros Hnow.
  rewrite !createSuccessResponse_run, !createErrorResponse_run. simpl.
  rewrite Hnow. split; reflexivity.
Qed.

(** ** Further properties of the constructors and the guards *)

(** X1.  A constructor call reads the clock exactly once and touches nothing
    else: after any sequence of calls the count of readings has grown by the
    number of calls, and the clock is the one the sequence started with. *)
Theorem run_reads_once_per_call (cs : list call) (w : World) :
  reads (snd (run cs w)) = reads w + length cs /\
  clock (snd (run cs w)) = clock w.
Proof.
  rewrite run_world. split; reflexivity.
Qed.

(** X2.  The envelope of the call number [k] of a sequence is stamped with
    the clock reading number [k] counted from the start of the sequence: no
    reading is skipped, shared or altered. *)
Theorem run_stamps_are_readings (cs : list call) (w : World) :
  map stamp (fst (run cs w)) =
  map (fun k => clock w (reads w + k)) (seq 0 (length cs)).
Proof.
  apply run_stamps.
Qed.

(** X3.  The constructors do not repair the clock: the timestamps of a
    sequence of calls never decrease if and only if the readings that the
    clock gives during the sequence never decrease. *)
Theorem timestamps_sorted_iff_readings_sorted (cs : list call) (w : World) :
  StronglySorted Z.le (map stamp (fst (run cs w))) <->
  (forall i j : nat,
      i <= j -> j < length cs ->
      (clock w (reads w + i) <= clock w (reads w + j))%Z).
Proof.
  rewrite run_stamps, sorted_readings. split.
  - intros H i j Hij Hj. apply H; lia.
  - intros H i j _ Hij Hj. apply H; lia.
Qed.

(** X4.  The guards sort the envelopes of a sequence of calls by the
    constructor that made them: [isSuccessResponse] answers [true] exactly
    on those of [createSuccessResponse], [isErrorResponse] exactly on those
    of [createErrorResponse], whatever the payloads and the clock. *)
Theorem guards_recover_constructor (cs : list call) (w : World) :
  map (fun e : envelope => isSuccessResponse (projT2 e)) (fst (run cs w)) =
  map is_success_call cs /\
  map (fun e : envelope => isErrorResponse (projT2 e)) (fst (run cs w)) =
  map (fun c => negb (is_success_call c)) cs.
Proof.
  revert w. induction cs as [| c cs IH]; intros w.
  - split; reflexivity.
  - rewrite run_cons. simpl.
    destruct (perform_guards c w) as [Hs He].
    destruct (IH (snd (perform c w))) as [IHs IHe].
    rewrite Hs, He, IHs, IHe. split; reflexivity.
Qed.

(** X5.  Two success envelopes are equal if and only if they were made from
    the same payload at the same clock reading: the envelope keeps the
    payload apart from every other payload. *)
Theorem createSuccessResponse_eq_iff (T : Type) (v1 v2 : T) (w1 w2 : World) :
  fst (createSuccessResponse v1 w1) = fst (createSuccessResponse v2 w2) <->
  v1 = v2 /\ now w1 = now w2.
Proof.
  rewrite !createSuccessResponse_run. simpl. split.
  - intros H. injection H as Hv Ht. split; assumption.
  - intros [-> ->]. reflexivity.
Qed.


End Envelope.

(** ** Concrete envelopes and runs *)

Local Open Scope string_scope.

Example createSuccess_42 :
  fst (createSuccessResponse json 42%Z boot) =
  {| success := true; data := present (val 42%Z); error := absent;
     timestamp := 1700000000000 |}.
Proof. reflexivity. Qed.

Example createFailure_not_found :
  fst (createErrorResponse (value := json)
         "NOT_FOUND" "Resource missing" None boot) =
  {| success := false; data := absent;
     error := present (val {| code := "NOT_FOUND";
                              message := "Resource missing";
                              details := present undefined |});
     timestamp := 1700000000000 |}.
Proof. reflexivity. Qed.

Example createFailure_retryable :
  fst (createErrorResponse "E1" "boom"
         (Some (val (JObject [("retryable", JBool true)]))) boot) =
  {| success := false; data := absent;
     error := present (val {| code := "E1"; message := "boom";
                              details := present
                                (val (JObject [("retryable", JBool true)])) |});
     timestamp := 1700000000000 |}.
Proof. reflexivity. Qed.

Example session_stamps :
  map (stamp (value := json)) (fst (run (session json) boot)) =
  [1700000000000; 1700000000000; 1700000000001; 1700000000001]%Z.
Proof. reflexivity. Qed.

Example overfull_guards :
  isSuccessResponse (overfull json) = true /\
  isErrorResponse (overfull json) = false.
Proof. split; reflexivity. Qed.

Example rewound_stamps_decrease :
  map (stamp (value := json)) (fst (run (session json) rewound)) =
  [1700000000000; 1699999999999; 1699999999998; 1699999999997]%Z /\
  ~ StronglySorted Z.le
      (map (stamp (value := json)) (fst (run (session json) rewound))).
Proof.
  split; [reflexivity | ].
  intros H. apply StronglySorted_inv in H as [_ H].
  apply Forall_inv in H. vm_compute in H. apply H. reflexivity.
Qed.

(** C1, as stated, fails: on the envelope [{ success: true, timestamp: 0 }]
    neither guard answers [true], since [isSuccessResponse] also asks for
    the key [data]. *)
Lemma flag_only_neither_guard :
  ~ exactly_one (isSuccessResponse (flag_only json))
               (isErrorResponse (flag_only json)).
Proof.
  unfold exactly_one. simpl. intros [[H _] | [_ H]]; discriminate H.
Qed.

(** C2, as stated, fails: the flag of [{ success: true, timestamp: 0 }] is
    true and [isSuccessResponse] answers [false]; the flag of
    [{ success: false, timestamp: 0 }] is false and [isErrorResponse]
    answers [false]. *)
Lemma flag_alone_does_not_decide :
  ~ (isSuccessResponse (flag_only json) = true <->
     success (flag_only json) = true) /\
  ~ (isErrorResponse (bare_failure json) = true <->
     success (bare_failure json) = false).
Proof.
  split; intros [_ H]; specialize (H eq_refl); discriminate H.
Qed.

(** C7 at work: four calls under the coarse clock. *)
Lemma timestamps_non_decreasing_session :
  non_decreasing (clock boot) /\
  length (fst (run (session json) boot)) = length (session json) /\
  StronglySorted Z.le
    (map (stamp (value := json)) (fst (run (session json) boot))).
Proof.
  assert (Hclock : non_decreasing (clock boot)).
  { intros i j Hij. simpl. unfold coarse_clock.
    apply Z.add_le_mono_l, Nat2Z.inj_le, Nat.Div0.div_le_mono. exact Hij. }
  split.
  - exact Hclock.
  - apply (timestamps_non_decreasing (session json) boot). exact Hclock.
Defined.

(** C10 at work: two different worlds that show the same time. *)
Lemma constructors_deterministic_still_seventh :
  now still = now seventh /\
  fst (createSuccessResponse json 42%Z still) =
  fst (createSuccessResponse json 42%Z seventh) /\
  fst (createErrorResponse (value := json) "E1" "boom" None still) =
  fst (createErrorResponse (value := json) "E1" "boom" None seventh).
Proof.
  split.
  - reflexivity.
  - apply (constructors_deterministic_modulo_clock (value := json)
             42%Z "E1" "boom" None still seventh).
    reflexivity.
Defined.
